(** * safeurl: the URL validator [isSafeUrl] and the fetch wrapper [safeFetch]

    A shallow embedding of [src/index.ts].  Strings are sequences of UTF-16
    code units, as in the host language; the host operations the code calls
    ([indexOf], [startsWith], [toLowerCase], [RegExp.prototype.test] on the
    two literal patterns) are written out as list functions. *)

From Stdlib Require Import List Bool NArith ZArith Lia String Ascii.
Import ListNotations.

Set Implicit Arguments.

(** ** Host strings *)

Module Host.

Definition codeUnit := N.
Definition jsstring := list codeUnit.

(** A string literal of the source, as its code units. *)
Definition js (s : string) : jsstring :=
  map N_of_ascii (list_ascii_of_string s).

Definition CR : codeUnit := 13%N.     (* \r *)
Definition LF : codeUnit := 10%N.     (* \n *)
Definition TAB : codeUnit := 9%N.     (* \t *)
Definition dot : codeUnit := 46%N.    (* . *)
Definition slash : codeUnit := 47%N.  (* / *)
Definition colon : codeUnit := 58%N.  (* : *)

(** [s.indexOf(c)] for a one-unit needle: the first index, or -1. *)
Fixpoint indexOf (c : codeUnit) (s : jsstring) : Z :=
  match s with
  | [] => (-1)%Z
  | x :: rest =>
      if N.eqb x c then 0%Z
      else let i := indexOf c rest in
           if Z.eqb i (-1) then (-1)%Z else Z.succ i
  end.

(** [s.startsWith(p)]. *)
Fixpoint startsWith (s p : jsstring) {struct p} : bool :=
  match p, s with
  | [], _ => true
  | _ :: _, [] => false
  | y :: p', x :: s' => N.eqb x y && startsWith s' p'
  end.

(** [toLowerCase] on one code unit: the letters A..Z of Basic Latin go to
    a..z, every other code unit is kept.  The host's Unicode mapping also
    lowers letters outside Basic Latin; the model keeps those, so it agrees
    with the host on every string whose cased letters are Basic Latin.  What
    depends on how other letters are lowered is stated over [isSafeUrlWith]
    below, for every lower-casing function. *)
Definition lowerUnit (c : codeUnit) : codeUnit :=
  if (N.leb 65 c && N.leb c 90)%bool then (c + 32)%N else c.

Definition toLowerCase (s : jsstring) : jsstring := map lowerUnit s.

(** A value handed to a parameter typed [string]: a primitive string, or
    anything else, of which the code only observes [typeof] (not 'string')
    and its truthiness. *)
Inductive value :=
| VString (s : jsstring)
| VOther (truthy : bool).

(** [!v] *)
Definition falsy (v : value) : bool :=
  match v with
  | VString s => match s with [] => true | _ :: _ => false end
  | VOther t => negb t
  end.

(** [typeof v !== 'string'] *)
Definition typeofNotString (v : value) : bool :=
  match v with
  | VString _ => false
  | VOther _ => true
  end.

End Host.

Import Host.

(** ** The validator *)

(** [SafeUrlOptions]: both fields are optional. *)
Record SafeUrlOptions := {
  allowRelative : option bool;
  allowedProtocols : option (list jsstring)
}.

(** [{}], the default of the [options] parameter. *)
Definition noOptions : SafeUrlOptions :=
  {| allowRelative := None; allowedProtocols := None |}.

(** The destructuring [{ allowRelative = true, allowedProtocols = ['http', 'https'] } = options]. *)
Definition allowRelativeOf (options : SafeUrlOptions) : bool :=
  match allowRelative options with
  | Some b => b
  | None => true
  end.

Definition allowedProtocolsOf (options : SafeUrlOptions) : list jsstring :=
  match allowedProtocols options with
  | Some l => l
  | None => [js "http"; js "https"]
  end.

(** [/[\r\n\t]/.test(url)] *)
Definition isControlChar (c : codeUnit) : bool :=
  N.eqb c CR || N.eqb c LF || N.eqb c TAB.

Definition controlCharsPattern (url : jsstring) : bool :=
  existsb isControlChar url.

(** [/(^|\/)\.\.(\/|$)/.test(url)].
    [dotsThenBoundary s]: the tail [\.\.(\/|$)] of the pattern matches at the
    head of [s]. *)
Definition dotsThenBoundary (s : jsstring) : bool :=
  match s with
  | c1 :: c2 :: rest =>
      N.eqb c1 dot && N.eqb c2 dot
      && match rest with
         | [] => true                 (* $ *)
         | c3 :: _ => N.eqb c3 slash  (* \/ *)
         end
  | _ => false
  end.

(** The pattern tried at every offset of the input; [atStart] says whether
    the offset is 0, where the alternative [^] of the group applies. *)
Fixpoint traversalFrom (atStart : bool) (s : jsstring) : bool :=
  (atStart && dotsThenBoundary s)
  || match s with
     | [] => false
     | c :: rest =>
         (N.eqb c slash && dotsThenBoundary rest) || traversalFrom false rest
     end.

Definition traversalPattern (url : jsstring) : bool :=
  traversalFrom true url.

(** [allowedProtocols.some(protocol => urlLower.startsWith(`${protocol.toLowerCase()}://`))] *)
Definition hasAllowedProtocol (url : jsstring) (allowed : list jsstring) : bool :=
  let urlLower := toLowerCase url in
  existsb (fun protocol => startsWith urlLower (toLowerCase protocol ++ js "://"))
          allowed.

(** [colonIndex !== -1 && (slashIndex === -1 || colonIndex < slashIndex)] *)
Definition hasProtocol (url : jsstring) : bool :=
  let colonIndex := indexOf colon url in
  let slashIndex := indexOf slash url in
  negb (Z.eqb colonIndex (-1))
  && (Z.eqb slashIndex (-1) || Z.ltb colonIndex slashIndex).

(** The [return] statements of [isSafeUrl], in source order. *)
Inductive Return :=
| RetNotAString      (* if (!url || typeof url !== 'string') return false *)
| RetControlChars    (* if (controlCharsPattern.test(url)) return false *)
| RetTraversal       (* if (traversalPattern.test(url)) return false *)
| RetAllowedProtocol (* if (hasAllowedProtocol) return true *)
| RetOtherProtocol   (* if (hasProtocol) return false *)
| RetNoRelative      (* if (!allowRelative) return false *)
| RetRelative.       (* return true *)

Definition returned (r : Return) : bool :=
  match r with
  | RetAllowedProtocol | RetRelative => true
  | _ => false
  end.

(** Which [return] a call of [isSafeUrl(url, options)] reaches. *)
Definition isSafeUrlReturn (url : value) (options : SafeUrlOptions) : Return :=
  if falsy url || typeofNotString url then RetNotAString
  else match url with
       | VOther _ => RetNotAString
       | VString url =>
           if controlCharsPattern url then RetControlChars
           else if traversalPattern url then RetTraversal
           else if hasAllowedProtocol url (allowedProtocolsOf options)
                then RetAllowedProtocol
           else if hasProtocol url then RetOtherProtocol
           else if negb (allowRelativeOf options) then RetNoRelative
           else RetRelative
       end.

Definition isSafeUrl (url : value) (options : SafeUrlOptions) : bool :=
  returned (isSafeUrlReturn url options).

(** ** The fetch wrapper *)

(** What [safeFetch] can be handed as [input]: a primitive string, a [URL]
    object (of which [toString()] gives the href), or another object, whose
    [url] property is absent ([None]) or holds a value. *)
Inductive FetchInput :=
| InputString (s : jsstring)
| InputURL (href : jsstring)
| InputObject (url : option value).

(** How a call of [safeFetch] ends: it returns [fetch(input, init)], or it
    throws [new Error(message)] without having called [fetch]. *)
Inductive Outcome (Init : Type) :=
| Fetch (input : FetchInput) (init : option Init)
| Throw (message : jsstring).

Arguments Fetch {Init} input init.
Arguments Throw {Init} message.

Definition invalidRequestMessage : jsstring :=
  js "Request object does not have a valid URL string.".

(** [`Security Violation: ...: "${urlStr}"`] *)
Definition securityViolationMessage (urlStr : jsstring) : jsstring :=
  js "Security Violation: URL contains unsafe characters or traversal attempts: "
  ++ [34%N] ++ urlStr ++ [34%N].

Definition safeFetch {Init : Type} (input : FetchInput) (init : option Init)
  : Outcome Init :=
  match input with
  | InputString s =>
      (* urlStr = input *)
      Fetch input init
  | InputURL href =>
      (* urlStr = input.toString() *)
      Fetch input init
  | InputObject (Some u) =>
      (* 'url' in input *)
      match u with
      | VString urlStr => Throw (securityViolationMessage urlStr)
      | VOther _ => Throw invalidRequestMessage
      end
  | InputObject None => Fetch input init
  end.

(** ** The notions the specification words its properties with *)

(** The string contains a carriage return, a line feed or a tab. *)
Definition containsControlChar (url : jsstring) : Prop :=
  In CR url \/ In LF url \/ In TAB url.

Definition dotdot : jsstring := [dot; dot].

(** [..] occurs somewhere in the string. *)
Definition containsDotDot (url : jsstring) : Prop :=
  exists pre post, url = pre ++ dotdot ++ post.

(** [..] occurs as a complete path segment: immediately preceded by the start
    of the string or a [/], and immediately followed by a [/] or the end. *)
Definition segmentBounded (url : jsstring) : Prop :=
  exists pre post,
    url = pre ++ dotdot ++ post
    /\ (pre = [] \/ exists pre', pre = pre' ++ [slash])
    /\ (post = [] \/ exists post', post = slash :: post').

(** The path segments of a string: the pieces between its [/]. *)
Fixpoint segments (url : jsstring) : list jsstring :=
  match url with
  | [] => [[]]
  | c :: rest =>
      if N.eqb c slash then [] :: segments rest
      else match segments rest with
           | seg :: segs => (c :: seg) :: segs
           | [] => [[c]]
           end
  end.

(** Scheme-bearing: a colon exists, with no [/] before it. *)
Definition schemeBearing (url : jsstring) : Prop :=
  exists pre post, url = pre ++ colon :: post /\ ~ In slash pre.

(** The scheme of a scheme-bearing string: what stands before its first colon. *)
Fixpoint schemeOf (url : jsstring) : jsstring :=
  match url with
  | [] => []
  | c :: rest => if N.eqb c colon then [] else c :: schemeOf rest
  end.

Definition sameIgnoringCase (a b : jsstring) : Prop :=
  toLowerCase a = toLowerCase b.

(** The string begins, case-insensitively, with [scheme://]. *)
Definition beginsWithScheme (url scheme : jsstring) : Prop :=
  exists pre rest,
    url = pre ++ rest /\ sameIgnoringCase pre (scheme ++ js "://").

(** The string begins with [scheme://] for a scheme of the allowlist. *)
Definition allowlisted (url : jsstring) (options : SafeUrlOptions) : Prop :=
  exists scheme,
    In scheme (allowedProtocolsOf options) /\ beginsWithScheme url scheme.

(** The vetoes other than the traversal one. *)
Definition disallowedScheme (url : jsstring) (options : SafeUrlOptions) : Prop :=
  schemeBearing url /\ ~ allowlisted url options.

Definition relativeGate (url : jsstring) (options : SafeUrlOptions) : Prop :=
  ~ schemeBearing url /\ ~ allowlisted url options
  /\ allowRelativeOf options = false.

(** An allowlist whose entries are free of a given code unit. *)
Definition entriesWithout (c : codeUnit) (options : SafeUrlOptions) : Prop :=
  forall p, In p (allowedProtocolsOf options) -> ~ In c p.

(** ** Inputs used in the examples *)

(** [{ allowedProtocols: [] }] *)
Definition emptyAllowlist : SafeUrlOptions :=
  {| allowRelative := None; allowedProtocols := Some [] |}.

(** [{ allowRelative: false }] *)
Definition absoluteOnly : SafeUrlOptions :=
  {| allowRelative := Some false; allowedProtocols := None |}.

(** [{ allowRelative: false, allowedProtocols: ['/a'] }] *)
Definition absoluteOnlySlashEntry : SafeUrlOptions :=
  {| allowRelative := Some false; allowedProtocols := Some [js "/a"] |}.

(** [{ allowRelative: false, allowedProtocols: ['//cdn'] }] *)
Definition absoluteOnlyHostEntry : SafeUrlOptions :=
  {| allowRelative := Some false; allowedProtocols := Some [js "//cdn"] |}.

(** The percent-encoded and backslash-delimited inputs of [test/test.ts]. *)
Definition encodedTraversalInputs : list jsstring :=
  [ js "https://example.com/api/%2e%2e/secret";
    js "https://example.com/api/%2e%2e%2fsecret";
    js "https://example.com/api/%252e%252e/secret";
    js "https://example.com/api/%252e%252e%252fsecret";
    js "https://example.com/api/%25252e%25252e/secret";
    js "https://example.com/api/%25252e%25252e%25252fsecret";
    js "https://example.com/api/..%2fsecret";
    js "https://example.com/api/%2e./secret";
    js "/%252e%252e/etc/passwd" ].

Definition backslashTraversalInputs : list jsstring :=
  [ js "https://example.com/api/..\secret";
    js "https://example.com/api/..%5csecret";
    js "..\Windows\System32" ].

(** ** Further notions, for the properties beyond the specification's list *)

(** The segment is exactly [..]. *)
Definition segmentIsDotDot (seg : jsstring) : bool :=
  match seg with
  | [c1; c2] => N.eqb c1 dot && N.eqb c2 dot
  | _ => false
  end.

(** The string holds [://] somewhere. *)
Definition containsSchemeSeparator (url : jsstring) : Prop :=
  exists pre post, url = pre ++ js "://" ++ post.

(** [options'] allows whatever [options] allows: relative strings if
    [options] does, and every allowlist entry of [options]. *)
Definition atLeastAsPermissive (options options' : SafeUrlOptions) : Prop :=
  (allowRelativeOf options = true -> allowRelativeOf options' = true)
  /\ incl (allowedProtocolsOf options) (allowedProtocolsOf options').

(** Two configurations with the same [allowRelative] whose allowlists hold
    the same entries once lower-cased, in whatever order and number. *)
Definition sameConfiguration (options options' : SafeUrlOptions) : Prop :=
  allowRelativeOf options = allowRelativeOf options'
  /\ forall p, In p (map toLowerCase (allowedProtocolsOf options))
               <-> In p (map toLowerCase (allowedProtocolsOf options')).

(** A decision procedure for [containsSchemeSeparator] and the like: [needle]
    is found at some offset of [s]. *)
Fixpoint occursIn (needle s : jsstring) : bool :=
  startsWith s needle
  || match s with
     | [] => false
     | _ :: rest => occursIn needle rest
     end.

(** [{ allowedProtocols: ['mailto', 'tel'] }] *)
Definition withMailto : SafeUrlOptions :=
  {| allowRelative := None;
     allowedProtocols := Some [js "mailto"; js "tel"] |}.

(** [{ allowRelative: false, allowedProtocols: [] }] *)
Definition denyAll : SafeUrlOptions :=
  {| allowRelative := Some false; allowedProtocols := Some [] |}.

(** [{ allowedProtocols: ['http', 'https', 'ftp'] }] *)
Definition withFtp : SafeUrlOptions :=
  {| allowRelative := None;
     allowedProtocols := Some [js "http"; js "https"; js "ftp"] |}.

(** [{ allowedProtocols: ['HTTPS', 'Http', 'https'] }] *)
Definition mixedCaseAllowlist : SafeUrlOptions :=
  {| allowRelative := None;
     allowedProtocols := Some [js "HTTPS"; js "Http"; js "https"] |}.

(** ** The validator over the host's lower-casing

    [String.prototype.toLowerCase] belongs to the host, not to the
    repository.  The definitions below are [hasAllowedProtocol],
    [isSafeUrlReturn] and [isSafeUrl] again, with the lower-casing function
    as a parameter [lower]: what is proved of them for every [lower] holds of
    the code under the host's Unicode lower-casing, and of the Basic Latin
    model [toLowerCase] above. *)

(** [allowedProtocols.some(protocol => urlLower.startsWith(`${protocol.toLowerCase()}://`))] *)
Definition hasAllowedProtocolWith (lower : jsstring -> jsstring)
  (url : jsstring) (allowed : list jsstring) : bool :=
  let urlLower := lower url in
  existsb (fun protocol => startsWith urlLower (lower protocol ++ js "://"))
          allowed.

Definition isSafeUrlReturnWith (lower : jsstring -> jsstring)
  (url : value) (options : SafeUrlOptions) : Return :=
  if falsy url || typeofNotString url then RetNotAString
  else match url with
       | VOther _ => RetNotAString
       | VString url =>
           if controlCharsPattern url then RetControlChars
           else if traversalPattern url then RetTraversal
           else if hasAllowedProtocolWith lower url (allowedProtocolsOf options)
                then RetAllowedProtocol
           else if hasProtocol url then RetOtherProtocol
           else if negb (allowRelativeOf options) then RetNoRelative
           else RetRelative
       end.

Definition isSafeUrlWith (lower : jsstring -> jsstring)
  (url : value) (options : SafeUrlOptions) : bool :=
  returned (isSafeUrlReturnWith lower url options).

(** The string begins, case-insensitively, with [scheme://] for a scheme of
    the allowlist, the way the code compares: the lower-cased string starts
    with the lower-cased scheme followed by [://]. *)
Definition allowlistedWith (lower : jsstring -> jsstring)
  (url : jsstring) (options : SafeUrlOptions) : Prop :=
  exists scheme,
    In scheme (allowedProtocolsOf options)
    /\ startsWith (lower url) (lower scheme ++ js "://") = true.

(** [{ allowedProtocols: ['blob:https'] }] *)
Definition blobAllowlist : SafeUrlOptions :=
  {| allowRelative := None; allowedProtocols := Some [js "blob:https"] |}.

(** ** Facts about the host operations *)

Section HostFacts.

Lemma startsWith_app (p rest : jsstring) : startsWith (p ++ rest) p = true.
Proof.
  induction p as [|y p IH]; simpl; [reflexivity|].
  now rewrite N.eqb_refl, IH.
Qed.

Lemma startsWith_inv (s p : jsstring) :
  startsWith s p = true -> exists rest, s = p ++ rest.
Proof.
  revert s; induction p as [|y p IH]; intros s H.
  - now exists s.
  - destruct s as [|x s]; simpl in H; [discriminate|].
    apply andb_true_iff in H as [Hx Hs].
    apply N.eqb_eq in Hx; subst y.
    destruct (IH _ Hs) as [rest ->].
    now exists rest.
Qed.

Lemma startsWith_iff (s p : jsstring) :
  startsWith s p = true <-> exists rest, s = p ++ rest.
Proof.
  split; [apply startsWith_inv|].
  intros [rest ->]; apply startsWith_app.
Qed.

Lemma lowerUnit_eq_slash (c : codeUnit) : lowerUnit c = slash <-> c = slash.
Proof.
  unfold lowerUnit, slash.
  destruct (N.leb 65 c && N.leb c 90)%bool eqn:E; [|tauto].
  apply andb_true_iff in E as [E1 E2].
  apply N.leb_le in E1, E2. lia.
Qed.

Lemma lowerUnit_eq_colon (c : codeUnit) : lowerUnit c = colon <-> c = colon.
Proof.
  unfold lowerUnit, colon.
  destruct (N.leb 65 c && N.leb c 90)%bool eqn:E; [|tauto].
  apply andb_true_iff in E as [E1 E2].
  apply N.leb_le in E1, E2. lia.
Qed.

Lemma toLowerCase_app (a b : jsstring) :
  toLowerCase (a ++ b) = toLowerCase a ++ toLowerCase b.
Proof. apply map_app. Qed.

Lemma toLowerCase_In_slash (s : jsstring) :
  In slash (toLowerCase s) <-> In slash s.
Proof.
  unfold toLowerCase; rewrite in_map_iff; split.
  - intros [x [Hx Hin]]. apply (proj1 (lowerUnit_eq_slash x)) in Hx. now subst x.
  - intros Hin. exists slash. now split.
Qed.

Lemma toLowerCase_In_colon (s : jsstring) :
  In colon (toLowerCase s) <-> In colon s.
Proof.
  unfold toLowerCase; rewrite in_map_iff; split.
  - intros [x [Hx Hin]]. apply (proj1 (lowerUnit_eq_colon x)) in Hx. now subst x.
  - intros Hin. exists colon. now split.
Qed.

Lemma indexOf_lower_bound (c : codeUnit) (s : jsstring) :
  (-1 <= indexOf c s)%Z.
Proof.
  induction s as [|x s IH]; simpl; [lia|].
  destruct (N.eqb x c); [lia|].
  destruct (Z.eqb_spec (indexOf c s) (-1)); lia.
Qed.

Lemma indexOf_absent (c : codeUnit) (s : jsstring) :
  indexOf c s = (-1)%Z <-> ~ In c s.
Proof.
  induction s as [|x s IH]; simpl; [tauto|].
  destruct (N.eqb_spec x c) as [->|Hne].
  - split; [discriminate|]. intros H; exfalso; apply H; now left.
  - pose proof (indexOf_lower_bound c s) as Hlb.
    destruct (Z.eqb_spec (indexOf c s) (-1)) as [E|E].
    + split; [|reflexivity]. intros _ [H|H]; [contradiction|]. now apply IH.
    + split; [lia|]. intros H. exfalso. apply E, IH. tauto.
Qed.

(** Past a prefix free of [c], [indexOf] is shifted by the prefix's length. *)
Lemma indexOf_skip (c : codeUnit) (pre s : jsstring) :
  ~ In c pre ->
  indexOf c (pre ++ s) =
    if Z.eqb (indexOf c s) (-1) then (-1)%Z
    else (Z.of_nat (List.length pre) + indexOf c s)%Z.
Proof.
  induction pre as [|x pre IH]; intros Hpre.
  - simpl. destruct (Z.eqb_spec (indexOf c s) (-1)); lia.
  - simpl app. simpl indexOf.
    destruct (N.eqb_spec x c) as [->|Hne]; [exfalso; apply Hpre; now left|].
    rewrite IH by (intros H; apply Hpre; now right).
    pose proof (indexOf_lower_bound c s) as Hlb.
    destruct (Z.eqb_spec (indexOf c s) (-1)) as [E|E]; [reflexivity|].
    destruct (Z.eqb_spec (Z.of_nat (List.length pre) + indexOf c s) (-1)); simpl List.length; lia.
Qed.

Lemma indexOf_first (c : codeUnit) (pre post : jsstring) :
  ~ In c pre -> indexOf c (pre ++ c :: post) = Z.of_nat (List.length pre).
Proof.
  intros Hpre. rewrite indexOf_skip by assumption.
  simpl. rewrite N.eqb_refl. simpl. lia.
Qed.

(** A present code unit splits the string at its first occurrence. *)
Lemma In_first (c : codeUnit) (s : jsstring) :
  In c s -> exists pre post, s = pre ++ c :: post /\ ~ In c pre.
Proof.
  induction s as [|x s IH]; intros Hin; [destruct Hin|].
  destruct (N.eq_dec x c) as [->|Hne].
  - exists [], s. split; [reflexivity|]. intros [].
  - destruct Hin as [E|Hin]; [contradiction|].
    destruct (IH Hin) as [pre [post [-> Hpre]]].
    exists (x :: pre), post. split; [reflexivity|].
    intros [E|H]; [contradiction|]. now apply Hpre.
Qed.

End HostFacts.

(** ** The checks of the validator, in the specification's words *)

Section ValidatorFacts.

Lemma isControlChar_iff (c : codeUnit) :
  isControlChar c = true <-> c = CR \/ c = LF \/ c = TAB.
Proof.
  unfold isControlChar.
  rewrite !orb_true_iff, !N.eqb_eq. tauto.
Qed.

Lemma controlCharsPattern_iff (url : jsstring) :
  controlCharsPattern url = true <-> containsControlChar url.
Proof.
  unfold controlCharsPattern, containsControlChar.
  rewrite existsb_exists. split.
  - intros [c [Hin Hc]]. apply isControlChar_iff in Hc.
    destruct Hc as [->| [->| ->]]; tauto.
  - intros [H| [H|H]]; eexists; (split; [exact H|]); reflexivity.
Qed.

Lemma dotsThenBoundary_iff (s : jsstring) :
  dotsThenBoundary s = true <->
  exists post, s = dotdot ++ post
               /\ (post = [] \/ exists post', post = slash :: post').
Proof.
  unfold dotsThenBoundary, dotdot. split.
  - destruct s as [|c1 [|c2 rest]]; try discriminate.
    rewrite !andb_true_iff, !N.eqb_eq. intros [[-> ->] Hrest].
    exists rest. split; [reflexivity|].
    destruct rest as [|c3 rest']; [now left|].
    apply N.eqb_eq in Hrest; subst c3. right. now exists rest'.
  - intros [post [-> Hpost]].
    destruct Hpost as [->| [post' ->]]; reflexivity.
Qed.

Lemma traversalFrom_true (s : jsstring) :
  traversalFrom true s = dotsThenBoundary s || traversalFrom false s.
Proof. destruct s; reflexivity. Qed.

Lemma traversalFrom_false_cons (c : codeUnit) (rest : jsstring) :
  traversalFrom false (c :: rest) =
  (N.eqb c slash && dotsThenBoundary rest) || traversalFrom false rest.
Proof. reflexivity. Qed.

Lemma traversalFrom_false_iff (s : jsstring) :
  traversalFrom false s = true <->
  exists pre' post, s = (pre' ++ [slash]) ++ dotdot ++ post
                    /\ (post = [] \/ exists post', post = slash :: post').
Proof.
  induction s as [|c rest IH].
  - split; [discriminate|].
    intros [pre' [post [E _]]]. destruct pre'; discriminate.
  - rewrite traversalFrom_false_cons, orb_true_iff, andb_true_iff, N.eqb_eq.
    rewrite dotsThenBoundary_iff, IH. split.
    + intros [[-> [post [-> Hpost]]] | [pre' [post [-> Hpost]]]].
      * exists [], post. now split.
      * exists (c :: pre'), post. now split.
    + intros [pre' [post [E Hpost]]].
      destruct pre' as [|x pre']; simpl in E; injection E as -> ->.
      * left. split; [reflexivity|]. now exists post.
      * right. exists pre', post. now split.
Qed.

(** The traversal pattern matches exactly the strings with a segment-bounded [..]. *)
Lemma traversalPattern_iff (url : jsstring) :
  traversalPattern url = true <-> segmentBounded url.
Proof.
  unfold traversalPattern, segmentBounded.
  rewrite traversalFrom_true, orb_true_iff.
  rewrite dotsThenBoundary_iff, traversalFrom_false_iff. split.
  - intros [[post [-> Hpost]] | [pre' [post [-> Hpost]]]].
    + exists [], post. split; [reflexivity|]. split; [now left|assumption].
    + exists (pre' ++ [slash]), post.
      split; [reflexivity|]. split; [right; now exists pre'|assumption].
  - intros [pre [post [-> [[->| [pre' ->]] Hpost]]]].
    + left. now exists post.
    + right. now exists pre', post.
Qed.

Lemma traversalPattern_false_iff (url : jsstring) :
  traversalPattern url = false <-> ~ segmentBounded url.
Proof.
  rewrite <- traversalPattern_iff. destruct (traversalPattern url); split;
    congruence.
Qed.

Lemma controlCharsPattern_false_iff (url : jsstring) :
  controlCharsPattern url = false <-> ~ containsControlChar url.
Proof.
  rewrite <- controlCharsPattern_iff. destruct (controlCharsPattern url); split;
    congruence.
Qed.

(** [hasProtocol] walks the string up to its first colon or slash. *)
Lemma hasProtocol_nil : hasProtocol [] = false.
Proof. reflexivity. Qed.

Lemma hasProtocol_cons (x : codeUnit) (s : jsstring) :
  hasProtocol (x :: s) =
  if N.eqb x colon then true
  else if N.eqb x slash then false
  else hasProtocol s.
Proof.
  unfold hasProtocol. simpl indexOf.
  pose proof (indexOf_lower_bound colon s) as Hc.
  pose proof (indexOf_lower_bound slash s) as Hs.
  destruct (N.eqb_spec x colon) as [Hxc|Hxc];
    destruct (N.eqb_spec x slash) as [Hxs|Hxs];
    try (exfalso; unfold colon, slash in *; congruence);
    repeat match goal with
           | |- context [Z.eqb ?a ?b] => destruct (Z.eqb_spec a b)
           | |- context [Z.ltb ?a ?b] => destruct (Z.ltb_spec a b)
           end;
    simpl; try reflexivity; exfalso; lia.
Qed.

(** The colon-before-first-slash test decides [schemeBearing]. *)
Lemma hasProtocol_iff (url : jsstring) :
  hasProtocol url = true <-> schemeBearing url.
Proof.
  unfold schemeBearing. split.
  - induction url as [|x s IH]; [discriminate|].
    rewrite hasProtocol_cons.
    destruct (N.eqb_spec x colon) as [->|Hxc].
    + intros _. exists [], s. split; [reflexivity|]. intros [].
    + destruct (N.eqb_spec x slash) as [->|Hxs]; [discriminate|].
      intros H. destruct (IH H) as [pre [post [-> Hpre]]].
      exists (x :: pre), post. split; [reflexivity|].
      intros [E|Hin]; [congruence|contradiction].
  - intros [pre [post [-> Hpre]]].
    induction pre as [|x pre IH].
    + simpl. rewrite hasProtocol_cons. now rewrite N.eqb_refl.
    + simpl app. rewrite hasProtocol_cons.
      destruct (N.eqb_spec x colon); [reflexivity|].
      destruct (N.eqb_spec x slash) as [->|Hxs].
      * exfalso. apply Hpre. now left.
      * apply IH. intros Hin. apply Hpre. now right.
Qed.

Lemma hasProtocol_false_iff (url : jsstring) :
  hasProtocol url = false <-> ~ schemeBearing url.
Proof.
  rewrite <- hasProtocol_iff. destruct (hasProtocol url); split; congruence.
Qed.

Lemma toLowerCase_separator : toLowerCase (js "://") = js "://".
Proof. reflexivity. Qed.

(** The prefix test against one allowlist entry. *)
Lemma startsWith_scheme_iff (url protocol : jsstring) :
  startsWith (toLowerCase url) (toLowerCase protocol ++ js "://") = true
  <-> beginsWithScheme url protocol.
Proof.
  unfold beginsWithScheme, sameIgnoringCase.
  rewrite startsWith_iff. split.
  - intros [rest E]. unfold toLowerCase in E.
    apply map_eq_app in E as [pre [rest' [-> [Hpre _]]]].
    exists pre, rest'. split; [reflexivity|].
    now rewrite toLowerCase_app, toLowerCase_separator.
  - intros [pre [rest [-> E]]].
    exists (toLowerCase rest).
    now rewrite toLowerCase_app, E, toLowerCase_app, toLowerCase_separator.
Qed.

Lemma hasAllowedProtocol_iff (url : jsstring) (options : SafeUrlOptions) :
  hasAllowedProtocol url (allowedProtocolsOf options) = true
  <-> allowlisted url options.
Proof.
  unfold hasAllowedProtocol, allowlisted. rewrite existsb_exists.
  split; intros [p [Hin H]]; exists p; (split; [assumption|]);
    now apply startsWith_scheme_iff.
Qed.

Lemma hasAllowedProtocol_false_iff (url : jsstring) (options : SafeUrlOptions) :
  hasAllowedProtocol url (allowedProtocolsOf options) = false
  <-> ~ allowlisted url options.
Proof.
  rewrite <- hasAllowedProtocol_iff.
  destruct (hasAllowedProtocol url (allowedProtocolsOf options)); split;
    congruence.
Qed.

End ValidatorFacts.

(** ** Allowlist entries and the scheme of a string *)

Section AllowlistFacts.

(** What a case-insensitive [scheme://] prefix says about the string itself:
    it is [a ++ ":" ++ ...] with [a] equal to the scheme up to case. *)
Lemma beginsWithScheme_split (url scheme : jsstring) :
  beginsWithScheme url scheme ->
  exists a rest, url = a ++ colon :: rest /\ sameIgnoringCase a scheme.
Proof.
  intros [pre [rest [-> E]]]. unfold sameIgnoringCase in *.
  rewrite toLowerCase_app, toLowerCase_separator in E.
  change (js "://") with [colon; slash; slash] in E.
  unfold toLowerCase in E.
  apply map_eq_app in E as [a [b [-> [Ha Hb]]]].
  apply map_eq_cons in Hb as [c [b' [-> [Hc _]]]].
  apply (proj1 (lowerUnit_eq_colon c)) in Hc; subst c.
  exists a, (b' ++ rest). split; [|exact Ha].
  now rewrite <- app_assoc.
Qed.

Lemma beginsWithScheme_nonempty (url scheme : jsstring) :
  beginsWithScheme url scheme -> url <> [].
Proof.
  intros H. apply beginsWithScheme_split in H as [a [rest [-> _]]].
  destruct a; discriminate.
Qed.

Lemma sameIgnoringCase_slash (a b : jsstring) :
  sameIgnoringCase a b -> In slash a -> In slash b.
Proof.
  unfold sameIgnoringCase. intros E H.
  apply toLowerCase_In_slash. rewrite <- E. now apply toLowerCase_In_slash.
Qed.

Lemma sameIgnoringCase_colon (a b : jsstring) :
  sameIgnoringCase a b -> In colon a -> In colon b.
Proof.
  unfold sameIgnoringCase. intros E H.
  apply toLowerCase_In_colon. rewrite <- E. now apply toLowerCase_In_colon.
Qed.

(** With entries free of [/], a string that matches the allowlist has its
    colon before any slash. *)
Lemma allowlisted_schemeBearing (url : jsstring) (options : SafeUrlOptions) :
  entriesWithout slash options ->
  allowlisted url options -> schemeBearing url.
Proof.
  intros Hfree [p [Hin Hp]].
  apply beginsWithScheme_split in Hp as [a [rest [-> Ha]]].
  exists a, rest. split; [reflexivity|].
  intros Hs. apply (Hfree p Hin). exact (sameIgnoringCase_slash Ha Hs).
Qed.

Lemma schemeOf_first (pre post : jsstring) :
  ~ In colon pre -> schemeOf (pre ++ colon :: post) = pre.
Proof.
  induction pre as [|x pre IH]; intros Hpre; simpl.
  - reflexivity.
  - destruct (N.eqb_spec x colon) as [->|Hne].
    + exfalso. apply Hpre. now left.
    + f_equal. apply IH. intros H. apply Hpre. now right.
Qed.

(** With entries free of [:], the matched entry is the scheme of the string,
    up to case. *)
Lemma allowlisted_schemeOf (url : jsstring) (options : SafeUrlOptions) :
  entriesWithout colon options ->
  allowlisted url options ->
  exists p, In p (allowedProtocolsOf options)
            /\ sameIgnoringCase p (schemeOf url).
Proof.
  intros Hfree [p [Hin Hp]].
  apply beginsWithScheme_split in Hp as [a [rest [-> Ha]]].
  exists p. split; [assumption|].
  rewrite schemeOf_first; [now symmetry|].
  intros Hc. apply (Hfree p Hin). exact (sameIgnoringCase_colon Ha Hc).
Qed.

Lemma default_allowlist_without_slash (options : SafeUrlOptions) :
  allowedProtocols options = None -> entriesWithout slash options.
Proof.
  intros Hdef p. unfold allowedProtocolsOf. rewrite Hdef.
  intros [<-| [<-| []]]; apply indexOf_absent; reflexivity.
Qed.

End AllowlistFacts.

(** ** Path segments *)

Section SegmentFacts.

Lemma segments_cons (c : codeUnit) (rest : jsstring) :
  segments (c :: rest) =
  if N.eqb c slash then [] :: segments rest
  else (c :: hd [] (segments rest)) :: tl (segments rest).
Proof.
  simpl. destruct (N.eqb c slash); [reflexivity|].
  destruct rest as [|x rest]; [reflexivity|].
  destruct (segments (x :: rest)) eqn:E; [|reflexivity].
  exfalso. simpl in E. destruct (N.eqb x slash); [discriminate|].
  destruct (segments rest); discriminate.
Qed.

Lemma segments_hd_tl (s : jsstring) :
  segments s = hd [] (segments s) :: tl (segments s).
Proof.
  destruct s as [|c rest]; [reflexivity|].
  rewrite segments_cons. now destruct (N.eqb c slash).
Qed.

(** The first segment is [..] exactly when [\.\.(\/|$)] matches at the head. *)
Lemma dotsThenBoundary_hd (s : jsstring) :
  dotsThenBoundary s = true <-> hd [] (segments s) = dotdot.
Proof.
  unfold dotdot.
  destruct s as [|c1 [|c2 [|c3 rest]]]; simpl dotsThenBoundary;
    rewrite ?segments_cons; simpl segments; simpl hd;
    repeat match goal with
           | |- context [N.eqb ?a ?b] =>
               destruct (N.eqb_spec a b); simpl hd; simpl andb
           end;
    subst; split; intros H; try discriminate H; try reflexivity;
    try (injection H; intros; subst; unfold dot, slash in *; congruence);
    try (exfalso; unfold dot, slash in *; congruence).
Qed.

Lemma traversalFrom_false_tl (s : jsstring) :
  traversalFrom false s = true <-> In dotdot (tl (segments s)).
Proof.
  induction s as [|c rest IH]; [simpl; split; [discriminate|tauto]|].
  rewrite traversalFrom_false_cons, segments_cons.
  destruct (N.eqb c slash); simpl tl.
  - rewrite andb_true_l, orb_true_iff, dotsThenBoundary_hd, IH.
    rewrite (segments_hd_tl rest) at 3. simpl. tauto.
  - simpl. exact IH.
Qed.

(** The traversal pattern matches exactly when one path segment is [..]. *)
Lemma traversalPattern_segments (url : jsstring) :
  traversalPattern url = true <-> In dotdot (segments url).
Proof.
  unfold traversalPattern.
  rewrite traversalFrom_true, orb_true_iff, dotsThenBoundary_hd,
    traversalFrom_false_tl.
  rewrite (segments_hd_tl url) at 3. simpl. tauto.
Qed.

Lemma segmentBounded_segments (url : jsstring) :
  segmentBounded url <-> In dotdot (segments url).
Proof.
  rewrite <- traversalPattern_iff. apply traversalPattern_segments.
Qed.

End SegmentFacts.

(** ** The decision of [isSafeUrl] *)

Section Decision.

Lemma isSafeUrl_string (url : jsstring) (options : SafeUrlOptions) :
  isSafeUrl (VString url) options =
  match url with
  | [] => false
  | _ :: _ =>
      negb (controlCharsPattern url) && negb (traversalPattern url)
      && (hasAllowedProtocol url (allowedProtocolsOf options)
          || (negb (hasProtocol url) && allowRelativeOf options))
  end.
Proof.
  unfold isSafeUrl, isSafeUrlReturn.
  destruct url as [|c rest]; [reflexivity|].
  simpl falsy. simpl typeofNotString. simpl orb.
  destruct (controlCharsPattern (c :: rest)); [reflexivity|].
  destruct (traversalPattern (c :: rest)); [reflexivity|].
  destruct (hasAllowedProtocol (c :: rest) (allowedProtocolsOf options));
    [reflexivity|].
  destruct (hasProtocol (c :: rest)); [reflexivity|].
  now destruct (allowRelativeOf options).
Qed.

(** A string is accepted exactly when it is non-empty, no veto fires, and it
    either begins with an allowlisted [scheme://] or is schemeless with
    relative strings allowed. *)
Lemma isSafeUrl_true_iff (url : jsstring) (options : SafeUrlOptions) :
  isSafeUrl (VString url) options = true <->
  url <> []
  /\ ~ containsControlChar url
  /\ ~ segmentBounded url
  /\ (allowlisted url options
      \/ (~ schemeBearing url /\ allowRelativeOf options = true)).
Proof.
  rewrite isSafeUrl_string.
  rewrite <- controlCharsPattern_false_iff, <- traversalPattern_false_iff,
    <- hasAllowedProtocol_iff, <- hasProtocol_false_iff.
  destruct url as [|c rest].
  - split; [discriminate|]. intros [H _]. now elim H.
  - rewrite !andb_true_iff, orb_true_iff, andb_true_iff, !negb_true_iff.
    split.
    + intros [[H1 H2] H3]. repeat split; try assumption. discriminate.
    + intros [_ [H1 [H2 H3]]]. now repeat split.
Qed.

Lemma isSafeUrl_false_iff (url : jsstring) (options : SafeUrlOptions) :
  isSafeUrl (VString url) options = false <->
  ~ (url <> []
     /\ ~ containsControlChar url
     /\ ~ segmentBounded url
     /\ (allowlisted url options
         \/ (~ schemeBearing url /\ allowRelativeOf options = true))).
Proof.
  rewrite <- isSafeUrl_true_iff.
  destruct (isSafeUrl (VString url) options); split; congruence.
Qed.

End Decision.

(** Deciding the specification's notions on a literal, by running the check
    of the code that decides it. *)
Ltac by_test :=
  lazymatch goal with
  | |- containsControlChar _ => apply controlCharsPattern_iff; reflexivity
  | |- ~ containsControlChar _ => apply controlCharsPattern_false_iff; reflexivity
  | |- segmentBounded _ => apply traversalPattern_iff; reflexivity
  | |- ~ segmentBounded _ => apply traversalPattern_false_iff; reflexivity
  | |- schemeBearing _ => apply hasProtocol_iff; reflexivity
  | |- ~ schemeBearing _ => apply hasProtocol_false_iff; reflexivity
  | |- allowlisted _ _ => apply hasAllowedProtocol_iff; reflexivity
  | |- ~ allowlisted _ _ => apply hasAllowedProtocol_false_iff; reflexivity
  | |- _ <> [] => discriminate
  | |- _ = _ => reflexivity
  end.

(** ** Control characters *)

(** C2. Every string that contains a carriage return, a line feed or a
    horizontal tab, anywhere, is rejected by [isSafeUrl], under every
    configuration. *)
Theorem C2_control_characters_rejected
  (url : jsstring) (options : SafeUrlOptions) :
  containsControlChar url ->
  isSafeUrl (VString url) options = false.
Proof.
  intros H. apply isSafeUrl_false_iff. tauto.
Qed.

Lemma C2_control_characters_rejected_witness :
  containsControlChar (js "https://example.com/api" ++ [TAB] ++ js "/param")
  /\ isSafeUrl (VString (js "https://example.com/api" ++ [TAB] ++ js "/param"))
       noOptions = false.
Proof.
  assert (H : containsControlChar
                (js "https://example.com/api" ++ [TAB] ++ js "/param"))
    by by_test.
  split; [exact H|].
  exact (C2_control_characters_rejected noOptions H).
Defined.

(** ** Path traversal *)

(** C3. A string in which [..] occurs as a complete path segment (preceded by
    the start of the string or a [/], followed by a [/] or the end) is
    rejected under every configuration; a string in which [..] occurs, but
    never as a complete segment, is accepted when no other veto (control
    character, disallowed scheme, relative-URL gate) applies. *)
Theorem C3_traversal_segments
  (url : jsstring) (options : SafeUrlOptions) :
  (segmentBounded url -> isSafeUrl (VString url) options = false)
  /\ (containsDotDot url -> ~ segmentBounded url ->
      ~ containsControlChar url ->
      ~ disallowedScheme url options ->
      ~ relativeGate url options ->
      isSafeUrl (VString url) options = true).
Proof.
  split.
  - intros H. apply isSafeUrl_false_iff. tauto.
  - intros [pre [post ->]] Hseg Hctl Hsch Hrel.
    apply isSafeUrl_true_iff.
    split; [destruct pre; discriminate|].
    split; [assumption|]. split; [assumption|].
    unfold disallowedScheme, relativeGate in *.
    destruct (hasAllowedProtocol (pre ++ dotdot ++ post)
                (allowedProtocolsOf options)) eqn:Ha.
    + left. now apply hasAllowedProtocol_iff.
    + apply hasAllowedProtocol_false_iff in Ha.
      destruct (hasProtocol (pre ++ dotdot ++ post)) eqn:Hp.
      * apply hasProtocol_iff in Hp. tauto.
      * apply hasProtocol_false_iff in Hp.
        right. split; [assumption|].
        destruct (allowRelativeOf options); [reflexivity|tauto].
Qed.

Lemma C3_traversal_segments_witness :
  (segmentBounded (js "/api/v1/../../admin")
   /\ isSafeUrl (VString (js "/api/v1/../../admin")) noOptions = false)
  /\ (containsDotDot (js "/api/v1/data...json")
      /\ ~ segmentBounded (js "/api/v1/data...json")
      /\ isSafeUrl (VString (js "/api/v1/data...json")) noOptions = true).
Proof.
  split.
  - assert (H : segmentBounded (js "/api/v1/../../admin")) by by_test.
    split; [exact H|].
    exact (proj1 (C3_traversal_segments (js "/api/v1/../../admin") noOptions) H).
  - assert (H1 : containsDotDot (js "/api/v1/data...json"))
      by (exists (js "/api/v1/data"), (js ".json"); reflexivity).
    assert (H2 : ~ segmentBounded (js "/api/v1/data...json")) by by_test.
    split; [exact H1|]. split; [exact H2|].
    apply (proj2 (C3_traversal_segments (js "/api/v1/data...json") noOptions));
      try assumption; try by_test.
    + intros [Hs _].
      cut (~ schemeBearing (js "/api/v1/data...json")); [tauto | by_test].
    + intros [_ [_ Hr]]. discriminate Hr.
Defined.

(** ** The protocol allowlist *)

(** C5, as stated, fails: with the empty allowlist and [allowRelative] left
    at true, the schemeless string [../etc/passwd] is rejected. *)
Lemma C5_counterexample :
  allowedProtocols emptyAllowlist = Some []
  /\ ~ schemeBearing (js "../etc/passwd")
  /\ allowRelativeOf emptyAllowlist = true
  /\ isSafeUrl (VString (js "../etc/passwd")) emptyAllowlist = false.
Proof.
  repeat split. by_test.
Qed.

(** C5, amended. With the empty allowlist every scheme-bearing string is
    rejected; a non-empty schemeless string on which neither the
    control-character nor the traversal veto fires is decided by
    [allowRelative] alone. *)
Theorem C5_empty_allowlist
  (url : jsstring) (options : SafeUrlOptions) :
  allowedProtocols options = Some [] ->
  (schemeBearing url -> isSafeUrl (VString url) options = false)
  /\ (~ schemeBearing url -> url <> [] ->
      ~ containsControlChar url -> ~ segmentBounded url ->
      isSafeUrl (VString url) options = allowRelativeOf options).
Proof.
  intros Hempty.
  assert (Hna : ~ allowlisted url options).
  { intros [p [Hin _]]. unfold allowedProtocolsOf in Hin.
    rewrite Hempty in Hin. destruct Hin. }
  split.
  - intros Hs. apply isSafeUrl_false_iff. tauto.
  - intros Hs Hne Hctl Hseg.
    destruct (allowRelativeOf options) eqn:Hrel.
    + apply isSafeUrl_true_iff. rewrite Hrel. tauto.
    + apply isSafeUrl_false_iff. rewrite Hrel.
      intros [_ [_ [_ [H|[_ H]]]]]; [contradiction|discriminate].
Qed.

Lemma C5_empty_allowlist_witness :
  allowedProtocols emptyAllowlist = Some []
  /\ (schemeBearing (js "https://example.com")
      /\ isSafeUrl (VString (js "https://example.com")) emptyAllowlist = false)
  /\ (~ schemeBearing (js "/api/data")
      /\ isSafeUrl (VString (js "/api/data")) emptyAllowlist
         = allowRelativeOf emptyAllowlist).
Proof.
  assert (H1 : schemeBearing (js "https://example.com")) by by_test.
  assert (H2 : ~ schemeBearing (js "/api/data")) by by_test.
  split; [reflexivity|]. split; (split; [assumption|]).
  - exact (proj1 (C5_empty_allowlist (js "https://example.com") emptyAllowlist
                    eq_refl) H1).
  - apply (proj2 (C5_empty_allowlist (js "/api/data") emptyAllowlist eq_refl));
      [exact H2 | by_test | by_test | by_test].
Defined.

(** ** The relative-URL gate *)

Lemma isSafeUrlReturn_control (url : jsstring) (options : SafeUrlOptions) :
  containsControlChar url ->
  isSafeUrlReturn (VString url) options = RetControlChars.
Proof.
  intros H. apply controlCharsPattern_iff in H.
  unfold isSafeUrlReturn. destruct url as [|c rest]; [discriminate H|].
  simpl falsy. simpl typeofNotString. simpl orb. now rewrite H.
Qed.

Lemma isSafeUrlReturn_traversal (url : jsstring) (options : SafeUrlOptions) :
  ~ containsControlChar url -> segmentBounded url ->
  isSafeUrlReturn (VString url) options = RetTraversal.
Proof.
  intros Hc Hs.
  apply controlCharsPattern_false_iff in Hc. apply traversalPattern_iff in Hs.
  unfold isSafeUrlReturn. destruct url as [|c rest]; [discriminate Hs|].
  simpl falsy. simpl typeofNotString. simpl orb. now rewrite Hc, Hs.
Qed.

(** C6, as stated, fails: with [allowRelative] false and the allowlist entry
    [/a], the schemeless string [/a://x] is accepted. *)
Lemma C6_counterexample :
  allowRelative absoluteOnlySlashEntry = Some false
  /\ ~ schemeBearing (js "/a://x")
  /\ isSafeUrl (VString (js "/a://x")) absoluteOnlySlashEntry = true.
Proof.
  repeat split. by_test.
Qed.

(** ** Protocol-relative strings *)

Lemma hasProtocol_protocol_relative (rest : jsstring) :
  hasProtocol (js "//" ++ rest) = false.
Proof.
  change (js "//" ++ rest) with (slash :: slash :: rest).
  now rewrite hasProtocol_cons.
Qed.

(** C7, as stated, fails: with [allowRelative] false and the allowlist entry
    [//cdn], the protocol-relative string [//cdn://x] is accepted, although
    no veto fires and [allowRelative] is not true. *)
Lemma C7_counterexample :
  startsWith (js "//cdn://x") (js "//") = true
  /\ hasProtocol (js "//cdn://x") = false
  /\ allowRelativeOf absoluteOnlyHostEntry = false
  /\ isSafeUrl (VString (js "//cdn://x")) absoluteOnlyHostEntry = true.
Proof.
  repeat split.
Qed.

(** ** Encoded and backslash-delimited traversal *)

(** C8. The traversal check fires exactly on a literal [..] bounded by the
    start of the string or [/] on the left and by [/] or the end on the
    right.  A non-empty string without such a segment and without a control
    character is accepted as soon as it begins with an allowlisted
    [scheme://], or is schemeless with [allowRelative] true; the
    percent-encoded and the backslash-delimited inputs of the test file are
    such strings, and [isSafeUrl] returns true for each of them under the
    default configuration. *)
Theorem C8_literal_traversal_only :
  (forall url, traversalPattern url = true <-> segmentBounded url)
  /\ (forall url options,
        url <> [] -> ~ containsControlChar url -> ~ segmentBounded url ->
        allowlisted url options
        \/ (~ schemeBearing url /\ allowRelativeOf options = true) ->
        isSafeUrl (VString url) options = true)
  /\ Forall (fun url =>
               ~ containsControlChar url /\ ~ segmentBounded url
               /\ isSafeUrl (VString url) noOptions = true)
            (encodedTraversalInputs ++ backslashTraversalInputs).
Proof.
  split; [exact traversalPattern_iff|]. split.
  - intros url options Hne Hc Hs H. apply isSafeUrl_true_iff. tauto.
  - repeat (apply Forall_cons; [split; [by_test|split; [by_test|reflexivity]]|]).
    apply Forall_nil.
Qed.

Lemma C8_literal_traversal_only_witness :
  (allowlisted (js "https://example.com/api/%2e%2e/secret") noOptions
   /\ isSafeUrl (VString (js "https://example.com/api/%2e%2e/secret")) noOptions
      = true)
  /\ (~ schemeBearing (js "..\Windows\System32")
      /\ isSafeUrl (VString (js "..\Windows\System32")) noOptions = true).
Proof.
  assert (H1 : allowlisted (js "https://example.com/api/%2e%2e/secret") noOptions)
    by by_test.
  assert (H2 : ~ schemeBearing (js "..\Windows\System32")) by by_test.
  split; (split; [assumption|]).
  - apply (proj1 (proj2 C8_literal_traversal_only));
      [by_test | by_test | by_test | left; exact H1].
  - apply (proj1 (proj2 C8_literal_traversal_only));
      [by_test | by_test | by_test | right; split; [exact H2 | reflexivity]].
Defined.

(** ** Degenerate inputs *)

(** C9. [isSafeUrl] always returns a boolean; for the empty string and for
    every value that is not a string it leaves through its first [return],
    with false, before any pattern is tried and under every configuration. *)
Theorem C9_degenerate_inputs (options : SafeUrlOptions) :
  (isSafeUrlReturn (VString []) options = RetNotAString
   /\ isSafeUrl (VString []) options = false)
  /\ (forall truthy,
        isSafeUrlReturn (VOther truthy) options = RetNotAString
        /\ isSafeUrl (VOther truthy) options = false)
  /\ (forall url, isSafeUrl url options = true \/ isSafeUrl url options = false).
Proof.
  split; [split; reflexivity|]. split.
  - intros truthy. unfold isSafeUrl, isSafeUrlReturn. simpl.
    rewrite orb_true_r. split; reflexivity.
  - intros url. destruct (isSafeUrl url options); [now left|now right].
Qed.

(** ** The fetch wrapper *)

(** C10. For every request-descriptor object with a string [url] field,
    [safeFetch] throws the security-violation error and does not call
    [fetch], also when [isSafeUrl] accepts that url. *)
Theorem C10_descriptor_always_throws
  (Init : Type) (urlStr : jsstring) (init : option Init) :
  safeFetch (InputObject (Some (VString urlStr))) init
  = Throw (securityViolationMessage urlStr)
  /\ (forall input' init',
        safeFetch (InputObject (Some (VString urlStr))) init
        <> Fetch input' init')
  /\ (isSafeUrl (VString (js "https://example.com/good")) noOptions = true
      /\ safeFetch (InputObject (Some (VString (js "https://example.com/good"))))
           init
         = Throw (securityViolationMessage (js "https://example.com/good"))).
Proof.
  split; [reflexivity|]. split; [discriminate|]. split; reflexivity.
Qed.

(** C1 states that [safeFetch] calls [fetch] only for strings [isSafeUrl]
    accepts.  The code never consults [isSafeUrl]: a string input (and a
    [URL] input) is always passed on to [fetch], also the input
    [https://example.com/../bad] that [isSafeUrl] rejects and that
    [test/test.ts] expects [safeFetch] to block. *)
Theorem C1_safeFetch_forwards_rejected_string
  (Init : Type) (init : option Init) :
  isSafeUrl (VString (js "https://example.com/../bad")) noOptions = false
  /\ safeFetch (InputString (js "https://example.com/../bad")) init
     = Fetch (InputString (js "https://example.com/../bad")) init
  /\ (forall s, safeFetch (InputString s) init = Fetch (InputString s) init)
  /\ (forall href, safeFetch (InputURL href) init = Fetch (InputURL href) init).
Proof.
  repeat split.
Qed.

(** * Further properties of the validator and the wrapper *)

(** ** Lower-casing and the characters the checks look for *)

Section CaseFacts.

(** Lower-casing neither creates nor removes a code unit below [A]. *)
Lemma lowerUnit_eqb (c k : codeUnit) :
  (k < 65)%N -> N.eqb (lowerUnit c) k = N.eqb c k.
Proof.
  intros Hk. unfold lowerUnit.
  destruct (N.leb 65 c && N.leb c 90)%bool eqn:E; [|reflexivity].
  apply andb_true_iff in E as [E1 E2]. apply N.leb_le in E1, E2.
  destruct (N.eqb_spec (c + 32) k); destruct (N.eqb_spec c k);
    try reflexivity; exfalso; lia.
Qed.

Lemma lowerUnit_idempotent (c : codeUnit) :
  lowerUnit (lowerUnit c) = lowerUnit c.
Proof.
  unfold lowerUnit.
  destruct (N.leb 65 c && N.leb c 90)%bool eqn:E.
  - apply andb_true_iff in E as [E1 E2]. apply N.leb_le in E1, E2.
    destruct (N.leb 65 (c + 32) && N.leb (c + 32) 90)%bool eqn:F;
      [|reflexivity].
    apply andb_true_iff in F as [F1 F2]. apply N.leb_le in F1, F2. lia.
  - now rewrite E.
Qed.

Lemma toLowerCase_idempotent (s : jsstring) :
  toLowerCase (toLowerCase s) = toLowerCase s.
Proof.
  unfold toLowerCase. rewrite map_map.
  apply map_ext. apply lowerUnit_idempotent.
Qed.

Lemma isControlChar_lowerUnit (c : codeUnit) :
  isControlChar (lowerUnit c) = isControlChar c.
Proof.
  unfold isControlChar, CR, LF, TAB.
  now rewrite !lowerUnit_eqb by lia.
Qed.

Lemma controlCharsPattern_toLowerCase (s : jsstring) :
  controlCharsPattern (toLowerCase s) = controlCharsPattern s.
Proof.
  unfold controlCharsPattern, toLowerCase.
  induction s as [|c s IH]; [reflexivity|].
  simpl. now rewrite isControlChar_lowerUnit, IH.
Qed.

Lemma dotsThenBoundary_toLowerCase (s : jsstring) :
  dotsThenBoundary (toLowerCase s) = dotsThenBoundary s.
Proof.
  unfold dotsThenBoundary, toLowerCase, dot, slash.
  destruct s as [|c1 [|c2 [|c3 rest]]]; simpl; try reflexivity;
    now rewrite !lowerUnit_eqb by lia.
Qed.

Lemma traversalFrom_toLowerCase (atStart : bool) (s : jsstring) :
  traversalFrom atStart (toLowerCase s) = traversalFrom atStart s.
Proof.
  revert atStart. induction s as [|c s IH]; intros atStart.
  - reflexivity.
  - change (toLowerCase (c :: s)) with (lowerUnit c :: toLowerCase s).
    change (traversalFrom atStart (lowerUnit c :: toLowerCase s))
      with ((atStart && dotsThenBoundary (toLowerCase (c :: s)))
            || ((N.eqb (lowerUnit c) slash && dotsThenBoundary (toLowerCase s))
                || traversalFrom false (toLowerCase s))).
    rewrite !dotsThenBoundary_toLowerCase, IH.
    unfold slash at 1. rewrite lowerUnit_eqb by lia. reflexivity.
Qed.

Lemma hasProtocol_toLowerCase (s : jsstring) :
  hasProtocol (toLowerCase s) = hasProtocol s.
Proof.
  induction s as [|c s IH]; [reflexivity|].
  change (toLowerCase (c :: s)) with (lowerUnit c :: toLowerCase s).
  rewrite !hasProtocol_cons, IH.
  unfold colon, slash. now rewrite !lowerUnit_eqb by lia.
Qed.

Lemma hasAllowedProtocol_toLowerCase (s : jsstring) (allowed : list jsstring) :
  hasAllowedProtocol (toLowerCase s) allowed = hasAllowedProtocol s allowed.
Proof.
  unfold hasAllowedProtocol. now rewrite toLowerCase_idempotent.
Qed.

Lemma isSafeUrl_toLowerCase (s : jsstring) (options : SafeUrlOptions) :
  isSafeUrl (VString (toLowerCase s)) options = isSafeUrl (VString s) options.
Proof.
  rewrite !isSafeUrl_string.
  rewrite controlCharsPattern_toLowerCase, hasProtocol_toLowerCase,
    hasAllowedProtocol_toLowerCase.
  unfold traversalPattern. rewrite traversalFrom_toLowerCase.
  now destruct s.
Qed.

End CaseFacts.

(** ** Joining strings with a slash *)

Section JoinFacts.

Lemma segments_join (a b : jsstring) :
  segments (a ++ slash :: b) = segments a ++ segments b.
Proof.
  induction a as [|c a IH].
  - reflexivity.
  - simpl app. rewrite !segments_cons, IH.
    destruct (N.eqb c slash); [reflexivity|].
    rewrite (segments_hd_tl a). reflexivity.
Qed.

Lemma hasProtocol_join (a b : jsstring) :
  hasProtocol (a ++ slash :: b) = hasProtocol a.
Proof.
  induction a as [|c a IH].
  - simpl app. now rewrite hasProtocol_cons.
  - simpl app. now rewrite !hasProtocol_cons, IH.
Qed.

Lemma controlCharsPattern_join (a b : jsstring) :
  controlCharsPattern (a ++ slash :: b)
  = controlCharsPattern a || controlCharsPattern b.
Proof.
  unfold controlCharsPattern. now rewrite existsb_app.
Qed.

Lemma hasAllowedProtocol_extend (a b : jsstring) (allowed : list jsstring) :
  hasAllowedProtocol a allowed = true ->
  hasAllowedProtocol (a ++ b) allowed = true.
Proof.
  unfold hasAllowedProtocol. rewrite !existsb_exists.
  intros [p [Hin Hp]]. exists p. split; [assumption|].
  apply startsWith_iff in Hp as [rest E].
  apply startsWith_iff. exists (rest ++ toLowerCase b).
  now rewrite toLowerCase_app, E, <- app_assoc.
Qed.

Lemma segmentIsDotDot_iff (seg : jsstring) :
  segmentIsDotDot seg = true <-> seg = dotdot.
Proof.
  unfold segmentIsDotDot, dotdot.
  destruct seg as [|c1 [|c2 [|c3 rest]]]; split; intros H;
    try discriminate H.
  - apply andb_true_iff in H as [H1 H2].
    apply N.eqb_eq in H1, H2. now subst.
  - injection H as -> ->. reflexivity.
Qed.

End JoinFacts.

(** ** Which strings are accepted *)

(** X1. The traversal pattern gives the answer of splitting the string at
    every [/] and looking for a piece that is exactly [..]. *)
Theorem X1_traversal_is_segment_search (url : jsstring) :
  traversalPattern url = existsb segmentIsDotDot (segments url).
Proof.
  apply eq_true_iff_eq.
  rewrite traversalPattern_segments, existsb_exists. split.
  - intros H. exists dotdot. split; [assumption|reflexivity].
  - intros [seg [Hin Hseg]]. apply segmentIsDotDot_iff in Hseg. now subst.
Qed.

(** X3. Joining two strings with a [/] is flagged by the traversal pattern
    exactly when one of the two is: the join creates no [..] segment and
    hides none. *)
Theorem X3_traversal_of_join (a b : jsstring) :
  traversalPattern (a ++ slash :: b) = traversalPattern a || traversalPattern b.
Proof.
  apply eq_true_iff_eq.
  rewrite orb_true_iff, !traversalPattern_segments, segments_join.
  apply in_app_iff.
Qed.

(** X4. When a [/] and a further string are appended to an accepted string,
    the result is accepted exactly when the appended string holds no control
    character and no [..] segment: what follows the first slash is never
    taken for a scheme. *)
Theorem X4_append_path
  (base path : jsstring) (options : SafeUrlOptions) :
  isSafeUrl (VString base) options = true ->
  (isSafeUrl (VString (base ++ slash :: path)) options = true
   <-> ~ containsControlChar path /\ ~ segmentBounded path).
Proof.
  intros Hbase.
  apply isSafeUrl_true_iff in Hbase as [Hne [Hbc [Hbs Hsch]]].
  rewrite isSafeUrl_true_iff.
  rewrite <- !controlCharsPattern_false_iff, !segmentBounded_segments in *.
  rewrite controlCharsPattern_join, segments_join, in_app_iff, Hbc.
  simpl orb. split; [tauto|].
  intros [Hc Hs].
  split; [destruct base; discriminate|].
  split; [assumption|]. split; [tauto|].
  destruct Hsch as [Ha|[Hp Hr]].
  - left. apply hasAllowedProtocol_iff. apply hasAllowedProtocol_iff in Ha.
    exact (hasAllowedProtocol_extend _ (slash :: path) _ Ha).
  - right. split; [|assumption].
    apply hasProtocol_false_iff. apply hasProtocol_false_iff in Hp.
    now rewrite hasProtocol_join.
Qed.

Lemma X4_append_path_witness :
  isSafeUrl (VString (js "https://example.com/api")) noOptions = true
  /\ (isSafeUrl (VString (js "https://example.com/api" ++ slash
                          :: js "v1/users?at=12:30")) noOptions = true
      <-> ~ containsControlChar (js "v1/users?at=12:30")
          /\ ~ segmentBounded (js "v1/users?at=12:30")).
Proof.
  assert (H1 : isSafeUrl (VString (js "https://example.com/api")) noOptions
               = true) by reflexivity.
  split; [exact H1|].
  exact (@X4_append_path (js "https://example.com/api")
           (js "v1/users?at=12:30") noOptions H1).
Defined.

(** ** How the decision depends on the configuration *)

Section ConfigurationFacts.

Lemma allowlisted_incl (url : jsstring) (options options' : SafeUrlOptions) :
  incl (allowedProtocolsOf options) (allowedProtocolsOf options') ->
  allowlisted url options -> allowlisted url options'.
Proof.
  intros Hincl [p [Hin Hp]]. exists p. split; [now apply Hincl|assumption].
Qed.

(** Whether a string begins with [scheme://] depends on the scheme up to
    case only. *)
Lemma beginsWithScheme_case (url p p' : jsstring) :
  toLowerCase p = toLowerCase p' ->
  beginsWithScheme url p -> beginsWithScheme url p'.
Proof.
  intros E [pre [rest [-> H]]]. exists pre, rest. split; [reflexivity|].
  unfold sameIgnoringCase in *.
  rewrite toLowerCase_app in *. now rewrite <- E.
Qed.

Lemma allowlisted_same (url : jsstring) (options options' : SafeUrlOptions) :
  (forall p, In p (map toLowerCase (allowedProtocolsOf options))
             -> In p (map toLowerCase (allowedProtocolsOf options'))) ->
  allowlisted url options -> allowlisted url options'.
Proof.
  intros Hsame [p [Hin Hp]].
  assert (Hl : In (toLowerCase p)
                 (map toLowerCase (allowedProtocolsOf options')))
    by (apply Hsame; now apply in_map).
  apply in_map_iff in Hl as [p' [E Hin']].
  exists p'. split; [assumption|].
  apply (beginsWithScheme_case (p := p)); [now symmetry|assumption].
Qed.

End ConfigurationFacts.

(** X5. Widening the configuration never turns an acceptance into a
    rejection: what [isSafeUrl] accepts under one configuration it accepts
    under every configuration that allows relative strings whenever the first
    does and whose allowlist holds every entry of the first. *)
Theorem X5_wider_configuration
  (url : value) (options options' : SafeUrlOptions) :
  atLeastAsPermissive options options' ->
  isSafeUrl url options = true ->
  isSafeUrl url options' = true.
Proof.
  intros [Hrel Hincl] H.
  destruct url as [s|t]; [|destruct t; discriminate H].
  apply isSafeUrl_true_iff in H as [Hne [Hc [Hs Hsch]]].
  apply isSafeUrl_true_iff. repeat (split; [assumption|]).
  destruct Hsch as [Ha|[Hp Hr]].
  - left. eapply allowlisted_incl; eassumption.
  - right. split; [assumption|]. now apply Hrel.
Qed.

Lemma X5_wider_configuration_witness :
  atLeastAsPermissive absoluteOnly withFtp
  /\ isSafeUrl (VString (js "https://example.com/page")) absoluteOnly = true
  /\ isSafeUrl (VString (js "https://example.com/page")) withFtp = true.
Proof.
  assert (H1 : atLeastAsPermissive absoluteOnly withFtp).
  { split; [discriminate|].
    intros p [<-| [<-| []]]; simpl; tauto. }
  assert (H2 : isSafeUrl (VString (js "https://example.com/page")) absoluteOnly
               = true) by reflexivity.
  split; [exact H1|]. split; [exact H2|].
  exact (@X5_wider_configuration (VString (js "https://example.com/page"))
           absoluteOnly withFtp H1 H2).
Defined.

(** X6. The decision depends on the allowlist only through the set of its
    lower-cased entries: order, repetition and letter case of the entries do
    not matter. *)
Theorem X6_allowlist_is_a_caseless_set
  (url : value) (options options' : SafeUrlOptions) :
  sameConfiguration options options' ->
  isSafeUrl url options = isSafeUrl url options'.
Proof.
  intros [Hrel Hsame].
  destruct url as [s|t]; [|destruct t; reflexivity].
  apply eq_true_iff_eq. rewrite !isSafeUrl_true_iff, Hrel.
  assert (Ha : allowlisted s options <-> allowlisted s options').
  { split; apply allowlisted_same; intros p; apply Hsame. }
  rewrite Ha. reflexivity.
Qed.

Lemma X6_allowlist_is_a_caseless_set_witness :
  sameConfiguration mixedCaseAllowlist noOptions
  /\ isSafeUrl (VString (js "http://example.com/page")) mixedCaseAllowlist
     = isSafeUrl (VString (js "http://example.com/page")) noOptions.
Proof.
  assert (H : sameConfiguration mixedCaseAllowlist noOptions).
  { split; [reflexivity|]. intros p. simpl. tauto. }
  split; [exact H|].
  exact (@X6_allowlist_is_a_caseless_set
           (VString (js "http://example.com/page")) mixedCaseAllowlist
           noOptions H).
Defined.

(** X7. The decision does not depend on the letter case of the string: two
    strings that differ only in the case of their letters are both accepted
    or both rejected. *)
Theorem X7_letter_case_is_ignored
  (a b : jsstring) (options : SafeUrlOptions) :
  sameIgnoringCase a b ->
  isSafeUrl (VString a) options = isSafeUrl (VString b) options.
Proof.
  intros E. unfold sameIgnoringCase in E.
  rewrite <- (isSafeUrl_toLowerCase a), <- (isSafeUrl_toLowerCase b).
  now rewrite E.
Qed.

Lemma X7_letter_case_is_ignored_witness :
  sameIgnoringCase (js "HTTP://Example.COM/Page") (js "http://example.com/page")
  /\ isSafeUrl (VString (js "HTTP://Example.COM/Page")) noOptions
     = isSafeUrl (VString (js "http://example.com/page")) noOptions.
Proof.
  assert (H : sameIgnoringCase (js "HTTP://Example.COM/Page")
                (js "http://example.com/page")) by reflexivity.
  split; [exact H|].
  exact (@X7_letter_case_is_ignored (js "HTTP://Example.COM/Page")
           (js "http://example.com/page") noOptions H).
Defined.

(** ** Strings without [://] *)

Section SeparatorFacts.

Lemma occursIn_iff (needle s : jsstring) :
  occursIn needle s = true <-> exists pre post, s = pre ++ needle ++ post.
Proof.
  induction s as [|c s IH].
  - simpl. rewrite orb_false_r, startsWith_iff. split.
    + intros [rest E]. exists [], rest. exact E.
    + intros [pre [post E]]. destruct pre; [now exists post|discriminate].
  - simpl occursIn. rewrite orb_true_iff, IH, startsWith_iff. split.
    + intros [[rest E]|[pre [post E]]].
      * exists [], rest. exact E.
      * exists (c :: pre), post. now rewrite E.
    + intros [pre [post E]]. destruct pre as [|x pre].
      * left. now exists post.
      * right. injection E as -> ->. now exists pre, post.
Qed.

Lemma containsSchemeSeparator_iff (url : jsstring) :
  occursIn (js "://") url = true <-> containsSchemeSeparator url.
Proof. apply occursIn_iff. Qed.

Lemma containsSchemeSeparator_false_iff (url : jsstring) :
  occursIn (js "://") url = false <-> ~ containsSchemeSeparator url.
Proof.
  rewrite <- containsSchemeSeparator_iff.
  destruct (occursIn (js "://") url); split; congruence.
Qed.

(** A string that matches an allowlist entry holds [://] itself, whatever
    the entries are. *)
Lemma allowlisted_separator (url : jsstring) (options : SafeUrlOptions) :
  allowlisted url options -> containsSchemeSeparator url.
Proof.
  intros [p [_ [pre [rest [-> E]]]]]. unfold sameIgnoringCase in E.
  rewrite toLowerCase_app, toLowerCase_separator in E.
  change (js "://") with [colon; slash; slash] in *.
  unfold toLowerCase in E.
  apply map_eq_app in E as [a [b [-> [_ Hb]]]].
  destruct b as [|c1 [|c2 [|c3 [|c4 b]]]]; try discriminate Hb.
  injection Hb as H1 H2 H3.
  apply (proj1 (lowerUnit_eq_colon c1)) in H1.
  apply (proj1 (lowerUnit_eq_slash c2)) in H2.
  apply (proj1 (lowerUnit_eq_slash c3)) in H3. subst.
  exists a, rest. unfold containsSchemeSeparator.
  now rewrite <- app_assoc.
Qed.

End SeparatorFacts.

(** X8. No configuration makes [isSafeUrl] accept a string that has a colon
    before its first slash and holds no [://]: [mailto:], [tel:],
    [javascript:], [data:] and a bare [host:port/path] are rejected whatever
    the allowlist holds. *)
Theorem X8_no_separator_no_scheme
  (url : jsstring) (options : SafeUrlOptions) :
  schemeBearing url ->
  ~ containsSchemeSeparator url ->
  isSafeUrl (VString url) options = false.
Proof.
  intros Hs Hsep. apply isSafeUrl_false_iff.
  intros [_ [_ [_ [Ha|[Hn _]]]]].
  - apply Hsep. eapply allowlisted_separator; eassumption.
  - exact (Hn Hs).
Qed.

Lemma X8_no_separator_no_scheme_witness :
  schemeBearing (js "mailto:test@example.com")
  /\ ~ containsSchemeSeparator (js "mailto:test@example.com")
  /\ isSafeUrl (VString (js "mailto:test@example.com")) withMailto = false.
Proof.
  assert (H1 : schemeBearing (js "mailto:test@example.com")) by by_test.
  assert (H2 : ~ containsSchemeSeparator (js "mailto:test@example.com"))
    by (apply containsSchemeSeparator_false_iff; reflexivity).
  split; [exact H1|]. split; [exact H2|].
  exact (@X8_no_separator_no_scheme (js "mailto:test@example.com") withMailto
           H1 H2).
Defined.

(** X9. For a string that holds no [://] the allowlist is irrelevant: two
    configurations with the same [allowRelative] decide it alike. *)
Theorem X9_allowlist_needs_separator
  (url : jsstring) (options options' : SafeUrlOptions) :
  ~ containsSchemeSeparator url ->
  allowRelativeOf options = allowRelativeOf options' ->
  isSafeUrl (VString url) options = isSafeUrl (VString url) options'.
Proof.
  intros Hsep Hrel. apply eq_true_iff_eq.
  rewrite !isSafeUrl_true_iff, Hrel.
  assert (H1 : ~ allowlisted url options)
    by (intros Ha; apply Hsep; eapply allowlisted_separator; eassumption).
  assert (H2 : ~ allowlisted url options')
    by (intros Ha; apply Hsep; eapply allowlisted_separator; eassumption).
  tauto.
Qed.

Lemma X9_allowlist_needs_separator_witness :
  ~ containsSchemeSeparator (js "/api/users/123")
  /\ allowRelativeOf emptyAllowlist = allowRelativeOf withFtp
  /\ isSafeUrl (VString (js "/api/users/123")) emptyAllowlist
     = isSafeUrl (VString (js "/api/users/123")) withFtp.
Proof.
  assert (H : ~ containsSchemeSeparator (js "/api/users/123"))
    by (apply containsSchemeSeparator_false_iff; reflexivity).
  split; [exact H|]. split; [reflexivity|].
  exact (@X9_allowlist_needs_separator (js "/api/users/123") emptyAllowlist
           withFtp H eq_refl).
Defined.

(** X10. For a string with a colon before its first slash [allowRelative] is
    irrelevant: two configurations with the same allowlist decide it alike. *)
Theorem X10_allowRelative_needs_no_scheme
  (url : jsstring) (options options' : SafeUrlOptions) :
  schemeBearing url ->
  allowedProtocolsOf options = allowedProtocolsOf options' ->
  isSafeUrl (VString url) options = isSafeUrl (VString url) options'.
Proof.
  intros Hs Hal. apply eq_true_iff_eq.
  rewrite !isSafeUrl_true_iff.
  assert (Ha : allowlisted url options <-> allowlisted url options')
    by (unfold allowlisted; now rewrite Hal).
  rewrite Ha. tauto.
Qed.

Lemma X10_allowRelative_needs_no_scheme_witness :
  schemeBearing (js "https://example.com/api")
  /\ allowedProtocolsOf absoluteOnly = allowedProtocolsOf noOptions
  /\ isSafeUrl (VString (js "https://example.com/api")) absoluteOnly
     = isSafeUrl (VString (js "https://example.com/api")) noOptions.
Proof.
  assert (H : schemeBearing (js "https://example.com/api")) by by_test.
  split; [exact H|]. split; [reflexivity|].
  exact (@X10_allowRelative_needs_no_scheme (js "https://example.com/api")
           absoluteOnly noOptions H eq_refl).
Defined.

(** X11. With [allowRelative] false and an empty allowlist, [isSafeUrl]
    rejects every value. *)
Theorem X11_deny_all (url : value) (options : SafeUrlOptions) :
  allowRelative options = Some false ->
  allowedProtocols options = Some [] ->
  isSafeUrl url options = false.
Proof.
  intros Hrel Hal.
  destruct url as [s|t]; [|destruct t; reflexivity].
  apply isSafeUrl_false_iff.
  intros [_ [_ [_ [[p [Hin _]]|[_ H]]]]].
  - unfold allowedProtocolsOf in Hin. rewrite Hal in Hin. destruct Hin.
  - unfold allowRelativeOf in H. rewrite Hrel in H. discriminate H.
Qed.

Lemma X11_deny_all_witness :
  allowRelative denyAll = Some false
  /\ allowedProtocols denyAll = Some []
  /\ isSafeUrl (VString (js "https://example.com/api/v1/users")) denyAll
     = false.
Proof.
  split; [reflexivity|]. split; [reflexivity|].
  exact (@X11_deny_all (VString (js "https://example.com/api/v1/users"))
           denyAll eq_refl eq_refl).
Defined.

(** ** What the wrapper hands to [fetch] and what it throws *)

(** X12. [safeFetch] reaches [fetch] exactly when its input is not an object
    with a [url] property, and then [fetch] receives the caller's own input
    and init, unchanged. *)
Theorem X12_fetch_receives_the_call_unchanged
  (Init : Type) (input input' : FetchInput) (init init' : option Init) :
  safeFetch input init = Fetch input' init'
  <-> input' = input /\ init' = init
      /\ forall u, input <> InputObject (Some u).
Proof.
  split.
  - destruct input as [s|href|[u|]]; simpl.
    + intros H. injection H as <- <-. repeat split. discriminate.
    + intros H. injection H as <- <-. repeat split. discriminate.
    + destruct u; discriminate.
    + intros H. injection H as <- <-. repeat split. discriminate.
  - intros [-> [-> Hno]].
    destruct input as [s|href|[u|]]; try reflexivity.
    now elim (Hno u).
Qed.

Lemma X12_fetch_receives_the_call_unchanged_witness :
  (forall u, InputURL (js "https://example.com/api") <> InputObject (Some u))
  /\ safeFetch (InputURL (js "https://example.com/api")) (Some tt)
     = Fetch (InputURL (js "https://example.com/api")) (Some tt).
Proof.
  assert (H : forall u,
             InputURL (js "https://example.com/api") <> InputObject (Some u))
    by discriminate.
  split; [exact H|].
  exact (proj2 (X12_fetch_receives_the_call_unchanged
                  (InputURL (js "https://example.com/api"))
                  (InputURL (js "https://example.com/api"))
                  (Some tt) (Some tt))
           (conj eq_refl (conj eq_refl H))).
Defined.

(** X13. The error thrown for a request descriptor tells the refused url:
    descriptors with different url strings get different messages, and none
    of these messages is the one thrown for a url that is not a string. *)
Theorem X13_error_names_the_url
  (Init : Type) (a b : jsstring) (init init' : option Init) :
  (safeFetch (InputObject (Some (VString a))) init
   = safeFetch (InputObject (Some (VString b))) init' -> a = b)
  /\ (forall truthy,
        safeFetch (InputObject (Some (VString a))) init
        <> safeFetch (InputObject (Some (VOther truthy))) init').
Proof.
  split.
  - intros H.
    assert (E : securityViolationMessage a = securityViolationMessage b)
      by (unfold safeFetch in H; congruence).
    unfold securityViolationMessage in E.
    apply app_inv_head in E. apply app_inv_head in E.
    now apply app_inv_tail in E.
  - intros truthy. simpl. intros H. injection H as H.
    unfold securityViolationMessage, invalidRequestMessage in H.
    simpl in H. discriminate H.
Qed.

Lemma X13_error_names_the_url_witness :
  safeFetch (InputObject (Some (VString (js "/a")))) (@None unit)
  = safeFetch (InputObject (Some (VString (js "/a")))) (@None unit)
  /\ js "/a" = js "/a".
Proof.
  split; [reflexivity|].
  exact (proj1 (@X13_error_names_the_url unit (js "/a") (js "/a") None None)
           eq_refl).
Defined.

(** * The allowlist under the host's lower-casing

    The statements of this part hold for every lower-casing function, hence
    for the one of the host. *)

Section HostLowerCase.

Variable lower : jsstring -> jsstring.

(** [''.toLowerCase()] is [''] *)
Hypothesis lower_empty : lower [] = [].

Lemma hasAllowedProtocolWith_iff (url : jsstring) (options : SafeUrlOptions) :
  hasAllowedProtocolWith lower url (allowedProtocolsOf options) = true
  <-> allowlistedWith lower url options.
Proof.
  unfold hasAllowedProtocolWith, allowlistedWith. apply existsb_exists.
Qed.

Lemma hasAllowedProtocolWith_false_iff
  (url : jsstring) (options : SafeUrlOptions) :
  hasAllowedProtocolWith lower url (allowedProtocolsOf options) = false
  <-> ~ allowlistedWith lower url options.
Proof.
  rewrite <- hasAllowedProtocolWith_iff.
  destruct (hasAllowedProtocolWith lower url (allowedProtocolsOf options));
    split; congruence.
Qed.

Lemma isSafeUrlWith_string (url : jsstring) (options : SafeUrlOptions) :
  isSafeUrlWith lower (VString url) options =
  match url with
  | [] => false
  | _ :: _ =>
      negb (controlCharsPattern url) && negb (traversalPattern url)
      && (hasAllowedProtocolWith lower url (allowedProtocolsOf options)
          || (negb (hasProtocol url) && allowRelativeOf options))
  end.
Proof.
  unfold isSafeUrlWith, isSafeUrlReturnWith.
  destruct url as [|c rest]; [reflexivity|].
  simpl falsy. simpl typeofNotString. simpl orb.
  destruct (controlCharsPattern (c :: rest)); [reflexivity|].
  destruct (traversalPattern (c :: rest)); [reflexivity|].
  destruct (hasAllowedProtocolWith lower (c :: rest)
              (allowedProtocolsOf options)); [reflexivity|].
  destruct (hasProtocol (c :: rest)); [reflexivity|].
  now destruct (allowRelativeOf options).
Qed.

Lemma isSafeUrlWith_true_iff (url : jsstring) (options : SafeUrlOptions) :
  isSafeUrlWith lower (VString url) options = true <->
  url <> []
  /\ ~ containsControlChar url
  /\ ~ segmentBounded url
  /\ (allowlistedWith lower url options
      \/ (~ schemeBearing url /\ allowRelativeOf options = true)).
Proof.
  rewrite isSafeUrlWith_string.
  rewrite <- controlCharsPattern_false_iff, <- traversalPattern_false_iff,
    <- hasAllowedProtocolWith_iff, <- hasProtocol_false_iff.
  destruct url as [|c rest].
  - split; [discriminate|]. intros [H _]. now elim H.
  - rewrite !andb_true_iff, orb_true_iff, andb_true_iff, !negb_true_iff.
    split.
    + intros [[H1 H2] H3]. repeat split; try assumption. discriminate.
    + intros [_ [H1 [H2 H3]]]. now repeat split.
Qed.

Lemma isSafeUrlWith_false_iff (url : jsstring) (options : SafeUrlOptions) :
  isSafeUrlWith lower (VString url) options = false <->
  ~ (url <> []
     /\ ~ containsControlChar url
     /\ ~ segmentBounded url
     /\ (allowlistedWith lower url options
         \/ (~ schemeBearing url /\ allowRelativeOf options = true))).
Proof.
  rewrite <- isSafeUrlWith_true_iff.
  destruct (isSafeUrlWith lower (VString url) options); split; congruence.
Qed.

(** A string that matches an allowlist entry is not empty. *)
Lemma allowlistedWith_nonempty (url : jsstring) (options : SafeUrlOptions) :
  allowlistedWith lower url options -> url <> [].
Proof.
  intros [p [_ Hp]] ->. rewrite lower_empty in Hp.
  destruct (lower p); discriminate Hp.
Qed.

Lemma isSafeUrlReturnWith_control (url : jsstring) (options : SafeUrlOptions) :
  containsControlChar url ->
  isSafeUrlReturnWith lower (VString url) options = RetControlChars.
Proof.
  intros H. apply controlCharsPattern_iff in H.
  unfold isSafeUrlReturnWith. destruct url as [|c rest]; [discriminate H|].
  simpl falsy. simpl typeofNotString. simpl orb. now rewrite H.
Qed.

Lemma isSafeUrlReturnWith_traversal (url : jsstring) (options : SafeUrlOptions) :
  ~ containsControlChar url -> segmentBounded url ->
  isSafeUrlReturnWith lower (VString url) options = RetTraversal.
Proof.
  intros Hc Hs.
  apply controlCharsPattern_false_iff in Hc. apply traversalPattern_iff in Hs.
  unfold isSafeUrlReturnWith. destruct url as [|c rest]; [discriminate Hs|].
  simpl falsy. simpl typeofNotString. simpl orb. now rewrite Hc, Hs.
Qed.

(** C4, amended. A string that begins, case-insensitively, with [scheme://]
    for a scheme of the configured allowlist is accepted, provided it holds
    no control character and no segment-bounded [..]; a scheme-bearing string
    that does not begin, case-insensitively, with [entry://] for any entry of
    the allowlist is rejected, whatever [allowRelative] is.  Case is ignored
    the way the code does it: the lower-cased string is compared with the
    lower-cased entry. *)
Theorem C4_protocol_allowlist
  (url : jsstring) (options : SafeUrlOptions) :
  (allowlistedWith lower url options ->
   ~ containsControlChar url -> ~ segmentBounded url ->
   isSafeUrlWith lower (VString url) options = true)
  /\ (schemeBearing url -> ~ allowlistedWith lower url options ->
      isSafeUrlWith lower (VString url) options = false).
Proof.
  split.
  - intros Ha Hctl Hseg. apply isSafeUrlWith_true_iff.
    split; [exact (allowlistedWith_nonempty Ha)|]. tauto.
  - intros Hs Hna. apply isSafeUrlWith_false_iff. tauto.
Qed.

(** C6, amended. With [allowRelative] false, every schemeless string that
    does not begin, case-insensitively, with [entry://] for an entry of the
    allowlist is rejected.  The control-character and traversal vetoes are
    reached before the gate, under every configuration. *)
Theorem C6_relative_gate
  (url : jsstring) (options : SafeUrlOptions) :
  (allowRelative options = Some false ->
   ~ schemeBearing url ->
   ~ allowlistedWith lower url options ->
   isSafeUrlWith lower (VString url) options = false)
  /\ (containsControlChar url ->
      isSafeUrlReturnWith lower (VString url) options = RetControlChars)
  /\ (~ containsControlChar url -> segmentBounded url ->
      isSafeUrlReturnWith lower (VString url) options = RetTraversal).
Proof.
  split; [|split].
  - intros Hrel Hs Hna. apply isSafeUrlWith_false_iff.
    intros [_ [_ [_ [Ha|[_ H]]]]]; [exact (Hna Ha)|].
    unfold allowRelativeOf in H. rewrite Hrel in H. discriminate H.
  - apply isSafeUrlReturnWith_control.
  - apply isSafeUrlReturnWith_traversal.
Qed.

(** C7, amended. A string that begins with [//] is never marked
    scheme-bearing by the colon-before-first-slash test; unless it begins,
    case-insensitively, with [entry://] for an entry of the allowlist, it is
    accepted exactly when [allowRelative] is true and neither the
    control-character nor the traversal veto fires. *)
Theorem C7_protocol_relative
  (rest : jsstring) (options : SafeUrlOptions) :
  hasProtocol (js "//" ++ rest) = false
  /\ (~ allowlistedWith lower (js "//" ++ rest) options ->
      (isSafeUrlWith lower (VString (js "//" ++ rest)) options = true <->
       allowRelativeOf options = true
       /\ ~ containsControlChar (js "//" ++ rest)
       /\ ~ segmentBounded (js "//" ++ rest))).
Proof.
  pose proof (hasProtocol_protocol_relative rest) as Hp.
  split; [exact Hp|].
  intros Hna. rewrite isSafeUrlWith_true_iff.
  apply hasProtocol_false_iff in Hp.
  split.
  - intros [_ [Hc [Hs [Ha|[_ Hr]]]]]; [contradiction|tauto].
  - intros [Hr [Hc Hs]]. split; [discriminate|]. tauto.
Qed.

(** X2. [isSafeUrl] accepts a string exactly when it is non-empty, holds no
    carriage return, line feed or tab, has no path segment equal to [..], and
    either its lower-cased form starts with a lower-cased allowlist entry
    followed by [://], or it has no colon before its first slash while
    [allowRelative] is true. *)
Theorem X2_accepted_strings (url : jsstring) (options : SafeUrlOptions) :
  isSafeUrlWith lower (VString url) options = true <->
  url <> []
  /\ ~ containsControlChar url
  /\ ~ In dotdot (segments url)
  /\ (allowlistedWith lower url options
      \/ (~ schemeBearing url /\ allowRelativeOf options = true)).
Proof.
  rewrite isSafeUrlWith_true_iff, segmentBounded_segments. reflexivity.
Qed.

End HostLowerCase.

(** The Basic Latin model is one such lower-casing. *)
Lemma isSafeUrlWith_toLowerCase (url : value) (options : SafeUrlOptions) :
  isSafeUrlWith toLowerCase url options = isSafeUrl url options.
Proof. reflexivity. Qed.

Ltac by_prefix_test :=
  lazymatch goal with
  | |- allowlistedWith _ _ _ => apply hasAllowedProtocolWith_iff; reflexivity
  | |- ~ allowlistedWith _ _ _ =>
      apply hasAllowedProtocolWith_false_iff; reflexivity
  end.

(** C4, as stated, fails: with the allowlist entry [blob:https], the
    scheme-bearing string [blob:https://example.com/x] is accepted, although
    its scheme, the text before its first colon, is no entry of the
    allowlist. *)
Lemma C4_counterexample :
  schemeBearing (js "blob:https://example.com/x")
  /\ schemeOf (js "blob:https://example.com/x") = js "blob"
  /\ (forall p, In p (allowedProtocolsOf blobAllowlist) ->
                ~ sameIgnoringCase p (js "blob"))
  /\ isSafeUrl (VString (js "blob:https://example.com/x")) blobAllowlist = true.
Proof.
  split; [by_test|]. split; [reflexivity|]. split; [|reflexivity].
  intros p [<-|[]]. discriminate.
Qed.

Lemma C4_protocol_allowlist_witness :
  (allowlistedWith toLowerCase (js "HTTPS://example.com/page") noOptions
   /\ isSafeUrlWith toLowerCase (VString (js "HTTPS://example.com/page"))
        noOptions = true)
  /\ (schemeBearing (js "ftp://example.com/file.txt")
      /\ ~ allowlistedWith toLowerCase (js "ftp://example.com/file.txt")
           noOptions
      /\ allowRelativeOf noOptions = true
      /\ isSafeUrlWith toLowerCase (VString (js "ftp://example.com/file.txt"))
           noOptions = false).
Proof.
  split.
  - assert (H : allowlistedWith toLowerCase (js "HTTPS://example.com/page")
                  noOptions) by by_prefix_test.
    split; [exact H|].
    apply (proj1 (@C4_protocol_allowlist toLowerCase eq_refl
                    (js "HTTPS://example.com/page") noOptions));
      [exact H | by_test | by_test].
  - assert (H1 : schemeBearing (js "ftp://example.com/file.txt")) by by_test.
    assert (H2 : ~ allowlistedWith toLowerCase
                     (js "ftp://example.com/file.txt") noOptions)
      by by_prefix_test.
    split; [exact H1|]. split; [exact H2|]. split; [reflexivity|].
    exact (proj2 (@C4_protocol_allowlist toLowerCase eq_refl
                    (js "ftp://example.com/file.txt") noOptions) H1 H2).
Defined.

Lemma C6_relative_gate_witness :
  (allowRelative absoluteOnly = Some false
   /\ ~ schemeBearing (js "/api/data")
   /\ ~ allowlistedWith toLowerCase (js "/api/data") absoluteOnly
   /\ isSafeUrlWith toLowerCase (VString (js "/api/data")) absoluteOnly = false)
  /\ (containsControlChar (js "/api" ++ [CR])
      /\ isSafeUrlReturnWith toLowerCase (VString (js "/api" ++ [CR]))
           absoluteOnly = RetControlChars)
  /\ (segmentBounded (js "data/..")
      /\ isSafeUrlReturnWith toLowerCase (VString (js "data/.."))
           absoluteOnly = RetTraversal).
Proof.
  assert (H1 : ~ schemeBearing (js "/api/data")) by by_test.
  assert (H2 : containsControlChar (js "/api" ++ [CR])) by by_test.
  assert (H3 : segmentBounded (js "data/..")) by by_test.
  assert (H4 : ~ allowlistedWith toLowerCase (js "/api/data") absoluteOnly)
    by by_prefix_test.
  split; [|split].
  - split; [reflexivity|]. split; [exact H1|]. split; [exact H4|].
    exact (proj1 (@C6_relative_gate toLowerCase (js "/api/data") absoluteOnly)
             eq_refl H1 H4).
  - split; [exact H2|].
    exact (proj1 (proj2 (@C6_relative_gate toLowerCase (js "/api" ++ [CR])
                           absoluteOnly)) H2).
  - split; [exact H3|].
    apply (proj2 (proj2 (@C6_relative_gate toLowerCase (js "data/..")
                           absoluteOnly))); [by_test | exact H3].
Defined.

Lemma C7_protocol_relative_witness :
  ~ allowlistedWith toLowerCase (js "//" ++ js "example.com/page") noOptions
  /\ (isSafeUrlWith toLowerCase (VString (js "//" ++ js "example.com/page"))
        noOptions = true <->
      allowRelativeOf noOptions = true
      /\ ~ containsControlChar (js "//" ++ js "example.com/page")
      /\ ~ segmentBounded (js "//" ++ js "example.com/page")).
Proof.
  assert (H : ~ allowlistedWith toLowerCase
                  (js "//" ++ js "example.com/page") noOptions)
    by by_prefix_test.
  split; [exact H|].
  exact (proj2 (@C7_protocol_relative toLowerCase (js "example.com/page")
                  noOptions) H).
Defined.

Lemma X2_accepted_strings_witness :
  (js "/api/v1/data...json" <> []
   /\ ~ containsControlChar (js "/api/v1/data...json")
   /\ ~ In dotdot (segments (js "/api/v1/data...json"))
   /\ (allowlistedWith toLowerCase (js "/api/v1/data...json") noOptions
       \/ (~ schemeBearing (js "/api/v1/data...json")
           /\ allowRelativeOf noOptions = true)))
  /\ isSafeUrlWith toLowerCase (VString (js "/api/v1/data...json")) noOptions
     = true.
Proof.
  assert (H : js "/api/v1/data...json" <> []
              /\ ~ containsControlChar (js "/api/v1/data...json")
              /\ ~ In dotdot (segments (js "/api/v1/data...json"))
              /\ (allowlistedWith toLowerCase (js "/api/v1/data...json")
                    noOptions
                  \/ (~ schemeBearing (js "/api/v1/data...json")
                      /\ allowRelativeOf noOptions = true))).
  { split; [discriminate|]. split; [by_test|]. split.
    - rewrite <- segmentBounded_segments. by_test.
    - right. split; [by_test|reflexivity]. }
  split; [exact H|].
  exact (proj2 (@X2_accepted_strings toLowerCase (js "/api/v1/data...json")
                  noOptions) H).
Defined.
